(** * Scaffold command construction: the Claude Code variant

    A shallow embedding of [scaffolds/base.py] and [scaffolds/claudecode.py]:
    the environment mapping, the setup script with its JSON payload, the
    command sequence built from a list of queries, and the shell escaping
    primitive, with the properties their specification states.

    A Python [str] is modelled as a [string] holding its UTF-8 bytes.  Every
    character the code inspects or inserts is ASCII, and an ASCII byte occurs
    in a UTF-8 text only as itself, so the byte-wise functions below act on
    the encoding as the Python functions act on the text. *)

From Stdlib Require Import Ascii String List Arith Lia.
From stdpp Require Import base strings list gmap.

(** ** Characters that cannot be written inside a literal *)

Definition dquote_c : ascii := "034"%char.
Definition squote_c : ascii := "039"%char.
Definition bslash_c : ascii := "\"%char.
Definition dollar_c : ascii := "$"%char.
Definition btick_c : ascii := "`"%char.
Definition newline_c : ascii := "010"%char.

Definition dquote : string := String dquote_c "".
Definition squote : string := String squote_c "".

(** ** The fragment of Python the two modules use *)

Module Py.

(** [s.replace(old, new)] for a non-empty [old]: scan from the left, at
    each position where [old] starts emit [new] and skip past the match
    ([skip] counts the characters of the match still to drop). *)
Fixpoint replace_from (old new : string) (skip : nat) (s : string) : string :=
  match s with
  | EmptyString => EmptyString
  | String c s' =>
      match skip with
      | S k => replace_from old new k s'
      | O =>
          if String.prefix old s
          then new +:+ replace_from old new (String.length old - 1) s'
          else String c (replace_from old new 0 s')
      end
  end.

(** [s.replace("", new)] puts [new] before every character and at the end. *)
Fixpoint interleave (new s : string) : string :=
  match s with
  | EmptyString => new
  | String c s' => new +:+ String c (interleave new s')
  end.

Definition replace (old new s : string) : string :=
  match old with
  | EmptyString => interleave new s
  | String _ _ => replace_from old new 0 s
  end.

(** Truth value of an [Optional[str]]: [None] and the empty text are false. *)
Definition truthy (o : option string) : bool :=
  match o with
  | Some (String _ _) => true
  | Some EmptyString | None => false
  end.

(** [a or b] where [a : Optional[str]] and [b : str]. *)
Definition or_else (a : option string) (b : string) : string :=
  match a with
  | Some (String c s) => String c s
  | Some EmptyString | None => b
  end.

End Py.

(** ** scaffolds/base.py *)

Definition SUPPORTED_MODELS : list string :=
  [ "claude-sonnet-4-5-20250929";
    "claude-opus-4-5-20251101";
    "claude-haiku-4-5-20251001";
    "gemini-3-pro";
    "deepseek-chat" ].

Definition DEFAULT_MODEL : string := "claude-sonnet-4-5-20250929".

(** ** scaffolds/claudecode.py: escaping *)

Definition _escape_for_shell (text : string) : string :=
  let text := Py.replace "\" "\\" text in
  let text := Py.replace dquote ("\" +:+ dquote) text in
  let text := Py.replace "$" "\$" text in
  let text := Py.replace "`" "\`" text in
  text.

(** ** What a POSIX shell reads between quotes

    Shell Command Language, 2.2.3: inside double quotes every character is
    literal except the dollar sign and the backquote, which start an
    expansion, the double quote, which ends the text, and the backslash,
    which is an escape only before a dollar sign, a backquote, a double
    quote, a backslash (the character is kept) or a newline (both are
    dropped).  [dq_literal s] is the text [s] denotes when [s] is the whole
    content of a double-quoted string and denotes a literal text; it is
    [None] when [s] ends the quoted string early or starts an expansion. *)

Module Sh.

Definition dq_escapable (c : ascii) : bool :=
  (c =? dollar_c)%char || (c =? btick_c)%char
  || (c =? dquote_c)%char || (c =? bslash_c)%char.

Definition dq_special (c : ascii) : bool :=
  (c =? dollar_c)%char || (c =? btick_c)%char || (c =? dquote_c)%char.

Fixpoint dq_literal (s : string) : option string :=
  match s with
  | EmptyString => Some EmptyString
  | String c rest =>
      if (c =? bslash_c)%char then
        match rest with
        | EmptyString => None
        | String d rest' =>
            if dq_escapable d then String d <$> dq_literal rest'
            else if (d =? newline_c)%char then dq_literal rest'
            else String c <$> (String d <$> dq_literal rest')
        end
      else if dq_special c then None
      else String c <$> dq_literal rest
  end.

(** Single quotes (2.2.2): every character up to the next single quote is
    kept as it is.  [sq_read s] reads from just after the opening quote and returns the
    content and what follows the closing quote. *)
Fixpoint sq_read (s : string) : option (string * string) :=
  match s with
  | EmptyString => None
  | String c rest =>
      if (c =? squote_c)%char then Some ("", rest)
      else match sq_read rest with
           | Some (content, after) => Some (String c content, after)
           | None => None
           end
  end.

End Sh.

(** ** Character-wise view of the escaping *)

Definition needs_escape (c : ascii) : bool :=
  (c =? bslash_c)%char || (c =? dquote_c)%char
  || (c =? dollar_c)%char || (c =? btick_c)%char.

Definition escape_char (c : ascii) : string :=
  if needs_escape c then String bslash_c (String c "") else String c "".

Fixpoint str_flat_map (f : ascii → string) (s : string) : string :=
  match s with
  | EmptyString => EmptyString
  | String c s' => f c +:+ str_flat_map f s'
  end.

Fixpoint str_count (p : ascii → bool) (s : string) : nat :=
  match s with
  | EmptyString => 0
  | String c s' => (if p c then 1 else 0) + str_count p s'
  end.

(** A one-character [replace] seen as a substitution on each character. *)
Definition subst_char (c : ascii) (new : string) (x : ascii) : string :=
  if (x =? c)%char then new else String x "".

(** The four replacements of [_escape_for_shell], as one pass each. *)
Definition four_passes (s : string) : string :=
  str_flat_map (subst_char btick_c "\`")
    (str_flat_map (subst_char dollar_c "\$")
      (str_flat_map (subst_char dquote_c ("\" +:+ dquote))
        (str_flat_map (subst_char bslash_c "\\") s))).


(** ** scaffolds/claudecode.py: the three operations *)

Definition name : string := "claudecode".

Definition ALLOWED_PERMISSIONS : list string :=
  [ "Bash(*)";
    "Write(*)";
    "Edit(*)";
    "Read(*)";
    "WebFetch(*)";
    "TodoRead(*)";
    "TodoWrite(*)";
    "Task(*)";
    "Glob(*)";
    "Grep(*)";
    "LS(*)" ].

(** The dict literal, its two items stored in the order they are written. *)
Definition get_docker_env (proxy_url : string) (model : option string)
  : gmap string string :=
  <["ANTHROPIC_API_KEY" := "fake-key"]>
    (<["ANTHROPIC_BASE_URL" := proxy_url]> ∅).

(** *** [json.dumps] on the values the setup script serialises

    A [dict] keeps the order in which its keys were written, and [dumps]
    follows it, so an object is a list of members.  With the default
    separators an item is followed by a comma and a space and a key by a
    colon and a space.  With [ensure_ascii=False] a string is written as it
    is between double quotes, except the double quote and the backslash
    (backslash-prefixed), backspace, form feed, newline, carriage return and
    tab (their letter escapes) and the other characters below 32 (a
    four-digit lower-case hexadecimal escape). *)

Module Json.

#[local] Set Warnings "-register-all".

Inductive value : Type :=
| Str (s : string)
| Arr (items : list value)
| Obj (members : list (string * value)).

Definition hex_digit (n : N) : ascii :=
  if (n <? 10)%N then ascii_of_N (48 + n) else ascii_of_N (87 + n).

Definition encode_char (c : ascii) : string :=
  if (c =? dquote_c)%char then String bslash_c dquote
  else if (c =? bslash_c)%char then "\\"
  else if (c =? "008")%char then "\b"
  else if (c =? "012")%char then "\f"
  else if (c =? "010")%char then "\n"
  else if (c =? "013")%char then "\r"
  else if (c =? "009")%char then "\t"
  else if (N_of_ascii c <? 32)%N then
    "\u00" +:+ String (hex_digit (N_of_ascii c / 16))
                (String (hex_digit (N_of_ascii c mod 16)) "")
  else String c "".

Definition encode_string (s : string) : string :=
  dquote +:+ str_flat_map encode_char s +:+ dquote.

Fixpoint join (sep : string) (parts : list string) : string :=
  match parts with
  | [] => ""
  | [p] => p
  | p :: rest => p +:+ sep +:+ join sep rest
  end.

Fixpoint dumps (v : value) : string :=
  match v with
  | Str s => encode_string s
  | Arr items => "[" +:+ join ", " (map dumps items) +:+ "]"
  | Obj members =>
      "{" +:+ join ", " (map (λ kv, encode_string kv.1 +:+ ": " +:+ dumps kv.2) members)
          +:+ "}"
  end.

(** *** Reading a JSON text back

    The decoder the target tool applies to the file, for the values above:
    objects, arrays and strings, white space between tokens, every escape
    of a string.  A code point above 127 given by a hexadecimal escape is
    stored as its UTF-8 bytes; a surrogate half is refused. *)

Inductive token : Type :=
| TLBrace | TRBrace | TLBrack | TRBrack | TColon | TComma
| TStr (s : string).

Inductive mode : Type :=
| Outside
| Inside (acc : string)
| Escaped (acc : string)
| Hex (acc : string) (digits : nat) (code : N).

Definition is_ws (c : ascii) : bool :=
  (c =? " ")%char || (c =? "009")%char || (c =? "010")%char || (c =? "013")%char.

Definition hex_value (c : ascii) : option N :=
  let n := N_of_ascii c in
  if (48 <=? n)%N && (n <=? 57)%N then Some (n - 48)%N
  else if (97 <=? n)%N && (n <=? 102)%N then Some (n - 87)%N
  else if (65 <=? n)%N && (n <=? 70)%N then Some (n - 55)%N
  else None.

Definition utf8 (code : N) : option string :=
  if (code <? 128)%N then Some (String (ascii_of_N code) "")
  else if (code <? 2048)%N then
    Some (String (ascii_of_N (192 + code / 64))
           (String (ascii_of_N (128 + code mod 64)) ""))
  else if (55296 <=? code)%N && (code <=? 57343)%N then None
  else
    Some (String (ascii_of_N (224 + code / 4096))
           (String (ascii_of_N (128 + (code / 64) mod 64))
             (String (ascii_of_N (128 + code mod 64)) ""))).

Definition unescape (c : ascii) : option ascii :=
  if (c =? dquote_c)%char then Some dquote_c
  else if (c =? bslash_c)%char then Some bslash_c
  else if (c =? "/")%char then Some "/"%char
  else if (c =? "b")%char then Some "008"%char
  else if (c =? "f")%char then Some "012"%char
  else if (c =? "n")%char then Some "010"%char
  else if (c =? "r")%char then Some "013"%char
  else if (c =? "t")%char then Some "009"%char
  else None.

(** One character: the token it completes, if any, and the next mode. *)
Definition step (m : mode) (c : ascii) : option (option token * mode) :=
  match m with
  | Outside =>
      if is_ws c then Some (None, Outside)
      else if (c =? "{")%char then Some (Some TLBrace, Outside)
      else if (c =? "}")%char then Some (Some TRBrace, Outside)
      else if (c =? "[")%char then Some (Some TLBrack, Outside)
      else if (c =? "]")%char then Some (Some TRBrack, Outside)
      else if (c =? ":")%char then Some (Some TColon, Outside)
      else if (c =? ",")%char then Some (Some TComma, Outside)
      else if (c =? dquote_c)%char then Some (None, Inside "")
      else None
  | Inside acc =>
      if (c =? dquote_c)%char then Some (Some (TStr acc), Outside)
      else if (c =? bslash_c)%char then Some (None, Escaped acc)
      else if (N_of_ascii c <? 32)%N then None
      else Some (None, Inside (acc +:+ String c ""))
  | Escaped acc =>
      if (c =? "u")%char then Some (None, Hex acc 4 0)
      else match unescape c with
           | Some d => Some (None, Inside (acc +:+ String d ""))
           | None => None
           end
  | Hex acc digits code =>
      match hex_value c with
      | None => None
      | Some d =>
          let code' := (16 * code + d)%N in
          match digits with
          | 0 => None
          | 1 => match utf8 code' with
                 | Some bytes => Some (None, Inside (acc +:+ bytes))
                 | None => None
                 end
          | S k => Some (None, Hex acc k code')
          end
      end
  end.

Definition emit (t : option token) (ts : list token) : list token :=
  match t with Some t => t :: ts | None => ts end.

(** The tokens of a text read from mode [m]; the text must end between
    tokens. *)
Fixpoint lex_go (m : mode) (s : string) : option (list token) :=
  match s with
  | EmptyString => match m with Outside => Some [] | _ => None end
  | String c s' =>
      match step m c with
      | Some (t, m') => emit t <$> lex_go m' s'
      | None => None
      end
  end.

(** The tokens completed within a piece of text and the mode at its end. *)
Fixpoint run (m : mode) (s : string) : option (list token * mode) :=
  match s with
  | EmptyString => Some ([], m)
  | String c s' =>
      match step m c with
      | Some (t, m') =>
          match run m' s' with
          | Some (ts, m'') => Some (emit t ts, m'')
          | None => None
          end
      | None => None
      end
  end.

Definition lex : string → option (list token) := lex_go Outside.

Fixpoint parse_value (fuel : nat) (ts : list token) : option (value * list token) :=
  match fuel with
  | 0 => None
  | S n =>
      match ts with
      | TStr s :: r => Some (Str s, r)
      | TLBrack :: TRBrack :: r => Some (Arr [], r)
      | TLBrack :: r =>
          match parse_items n r with
          | Some (vs, r') => Some (Arr vs, r')
          | None => None
          end
      | TLBrace :: TRBrace :: r => Some (Obj [], r)
      | TLBrace :: r =>
          match parse_members n r with
          | Some (ms, r') => Some (Obj ms, r')
          | None => None
          end
      | _ => None
      end
  end
with parse_items (fuel : nat) (ts : list token) : option (list value * list token) :=
  match fuel with
  | 0 => None
  | S n =>
      match parse_value n ts with
      | Some (v, TRBrack :: r) => Some ([v], r)
      | Some (v, TComma :: r) =>
          match parse_items n r with
          | Some (vs, r') => Some (v :: vs, r')
          | None => None
          end
      | _ => None
      end
  end
with parse_members (fuel : nat) (ts : list token)
  : option (list (string * value) * list token) :=
  match fuel with
  | 0 => None
  | S n =>
      match ts with
      | TStr k :: TColon :: r =>
          match parse_value n r with
          | Some (v, TRBrace :: r') => Some ([(k, v)], r')
          | Some (v, TComma :: r') =>
              match parse_members n r' with
              | Some (ms, r'') => Some ((k, v) :: ms, r'')
              | None => None
              end
          | _ => None
          end
      | _ => None
      end
  end.

(** A JSON text is one value and nothing after it. *)
Definition loads (s : string) : option value :=
  match lex s with
  | Some ts =>
      match parse_value (S (2 * length ts)) ts with
      | Some (v, []) => Some v
      | _ => None
      end
  | None => None
  end.

End Json.

Fixpoint str_mem (c : ascii) (s : string) : bool :=
  match s with
  | EmptyString => false
  | String x s' => (x =? c)%char || str_mem c s'
  end.

Definition settings (proxy_url : string) : Json.value :=
  Json.Obj
    [ ("env", Json.Obj [ ("ANTHROPIC_BASE_URL", Json.Str proxy_url) ]);
      ("permissions", Json.Obj [ ("allow", Json.Arr (Json.Str <$> ALLOWED_PERMISSIONS)) ]) ].

Definition get_setup_script (proxy_url : string) (model : option string) : string :=
  let settings_json := Json.dumps (settings proxy_url) in
  "mkdir -p ~/.claude && echo " +:+ squote +:+ settings_json +:+ squote
    +:+ " > ~/.claude/settings.json".

(** The payload before and after the endpoint. *)
Definition payload_before : string :=
  "{" +:+ dquote +:+ "env" +:+ dquote +:+ ": {"
      +:+ dquote +:+ "ANTHROPIC_BASE_URL" +:+ dquote +:+ ": " +:+ dquote.

Definition payload_after : string :=
  dquote +:+ "}, " +:+ dquote +:+ "permissions" +:+ dquote +:+ ": {"
    +:+ dquote +:+ "allow" +:+ dquote +:+ ": "
    +:+ Json.dumps (Json.Arr (Json.Str <$> ALLOWED_PERMISSIONS)) +:+ "}}".

(** *** [build_commands] *)

(** [for i, x in enumerate(xs): commands.append(body i x)], from index [i]
    with the list built so far. *)
Fixpoint for_enumerate (body : nat → string → string) (i : nat)
    (xs : list string) (commands : list string) : list string :=
  match xs with
  | [] => commands
  | x :: rest => for_enumerate body (S i) rest (commands ++ [body i x])
  end.

(** The body of the loop: the command for the query at index [i]. *)
Definition command_for (model_name : string) (system_prompt : option string)
    (i : nat) (query : string) : string :=
  let escaped_query := _escape_for_shell query in
  if (i =? 0)%nat then
    let base_cmd := "claude --model " +:+ model_name +:+ " --dangerously-skip-permissions" in
    match system_prompt with
    | Some (String _ _ as sp) =>
        let escaped_sp := _escape_for_shell sp in
        base_cmd +:+ " -p " +:+ dquote +:+ escaped_query +:+ dquote
          +:+ " --system-prompt " +:+ dquote +:+ escaped_sp +:+ dquote
    | Some EmptyString | None =>
        base_cmd +:+ " -p " +:+ dquote +:+ escaped_query +:+ dquote
    end
  else
    "claude --dangerously-skip-permissions -c -p " +:+ dquote +:+ escaped_query +:+ dquote.

Definition build_commands (queries : list string)
    (system_prompt model : option string) : list string :=
  let commands := [] in
  let model_name := Py.or_else model DEFAULT_MODEL in
  for_enumerate (command_for model_name system_prompt) 0 queries commands.

(** *** The contract of [BaseScaffold] and the variant as its instance *)

Class BaseScaffold : Type := {
  scaffold_name : string;
  scaffold_docker_env : string → option string → gmap string string;
  scaffold_setup_script : string → option string → string;
  scaffold_commands : list string → option string → option string → list string
}.

#[export] Instance ClaudeCodeScaffold : BaseScaffold := {|
  scaffold_name := name;
  scaffold_docker_env := get_docker_env;
  scaffold_setup_script := get_setup_script;
  scaffold_commands := build_commands
|}.

(** ** Notions the statements use *)

(** [t] is the end of [s]. *)
Definition str_suffix (t s : string) : Prop := ∃ pre, s = pre +:+ t.

(** The argument that carries a system prompt [sp] on a command line. *)
Definition system_prompt_arg (sp : string) : string :=
  " --system-prompt " +:+ dquote +:+ _escape_for_shell sp +:+ dquote.

(** The argument that carries a query. *)
Definition query_arg (query : string) : string :=
  " -p " +:+ dquote +:+ _escape_for_shell query +:+ dquote.

(** The command of a first turn without a system prompt, and of a later turn. *)
Definition initial_command (model_name query : string) : string :=
  "claude --model " +:+ model_name +:+ " --dangerously-skip-permissions" +:+ query_arg query.

Definition continuation_command (query : string) : string :=
  "claude --dangerously-skip-permissions -c" +:+ query_arg query.

(** Every double quote of [e] comes right after a backslash, [prev] being
    the character before [e]. *)
Fixpoint quote_guarded (prev : ascii) (e : string) : bool :=
  match e with
  | EmptyString => true
  | String c e' =>
      (if (c =? dquote_c)%char then (prev =? bslash_c)%char else true)
      && quote_guarded c e'
  end.

Fixpoint str_last (s : string) : option ascii :=
  match s with
  | EmptyString => None
  | String c EmptyString => Some c
  | String _ s' => str_last s'
  end.

(** The reading of the specification under which a system prompt shows in
    the first command exactly when the argument was given. *)
Definition system_prompt_iff_supplied (queries : list string)
    (system_prompt model : option string) : Prop :=
  ∀ first, build_commands queries system_prompt model !! 0 = Some first →
    ((∃ sp, str_suffix (system_prompt_arg sp) first) ↔ is_Some system_prompt).

(** The reading of the specification under which a selector outside the
    supported list reaches the first command as it was given. *)
Definition selector_passed_verbatim (query : string)
    (system_prompt : option string) (model : string) : Prop :=
  model ∉ SUPPORTED_MODELS →
  build_commands [query] system_prompt (Some model)
  = [command_for model system_prompt 0 query].

(** ** The words a shell command line is split into

    Token recognition of the Shell Command Language (2.3) for a simple
    command whose words are literal: blanks separate words, a word is made
    of plain characters and of double-quoted parts read as in
    [Sh.dq_literal], and adjacent parts form one word.  Anything else (an
    operator, an expansion, a single quote, a backslash or a newline
    outside double quotes) is outside this fragment and gives [None], as
    does a quoted part that is not closed.  Reserved words and assignments
    are not recognised: the commands read here start with a plain word. *)

Module Argv.

Inductive mode : Type :=
| Blank
| Word (acc : string)
| Quoted (acc : string)
| QuotedEsc (acc : string).

(** Letters, digits, and the punctuation that is literal in any position. *)
Definition plain (c : ascii) : bool :=
  let n := N_of_ascii c in
  ((48 <=? n)%N && (n <=? 57)%N) || ((65 <=? n)%N && (n <=? 90)%N)
  || ((97 <=? n)%N && (n <=? 122)%N)
  || (c =? "-")%char || (c =? "_")%char || (c =? ".")%char
  || (c =? "/")%char || (c =? ":")%char.

Definition blank (c : ascii) : bool := (c =? " ")%char || (c =? "009")%char.

(** One character: the word it completes, if any, and the next mode. *)
Definition step (m : mode) (c : ascii) : option (option string * mode) :=
  match m with
  | Blank =>
      if blank c then Some (None, Blank)
      else if (c =? dquote_c)%char then Some (None, Quoted "")
      else if plain c then Some (None, Word (String c ""))
      else None
  | Word acc =>
      if blank c then Some (Some acc, Blank)
      else if (c =? dquote_c)%char then Some (None, Quoted acc)
      else if plain c then Some (None, Word (acc +:+ String c ""))
      else None
  | Quoted acc =>
      if (c =? dquote_c)%char then Some (None, Word acc)
      else if (c =? bslash_c)%char then Some (None, QuotedEsc acc)
      else if (c =? dollar_c)%char || (c =? btick_c)%char then None
      else Some (None, Quoted (acc +:+ String c ""))
  | QuotedEsc acc =>
      if Sh.dq_escapable c then Some (None, Quoted (acc +:+ String c ""))
      else if (c =? newline_c)%char then Some (None, Quoted acc)
      else Some (None, Quoted (acc +:+ String bslash_c (String c "")))
  end.

Definition emit (w : option string) (ws : list string) : list string :=
  match w with Some w => w :: ws | None => ws end.

Fixpoint fields_go (m : mode) (s : string) : option (list string) :=
  match s with
  | EmptyString =>
      match m with
      | Blank => Some []
      | Word acc => Some [acc]
      | Quoted _ | QuotedEsc _ => None
      end
  | String c s' =>
      match step m c with
      | Some (w, m') => emit w <$> fields_go m' s'
      | None => None
      end
  end.

(** The words completed within a piece of text and the mode at its end. *)
Fixpoint run (m : mode) (s : string) : option (list string * mode) :=
  match s with
  | EmptyString => Some ([], m)
  | String c s' =>
      match step m c with
      | Some (w, m') =>
          match run m' s' with
          | Some (ws, m'') => Some (emit w ws, m'')
          | None => None
          end
      | None => None
      end
  end.

Definition fields : string → option (list string) := fields_go Blank.

End Argv.

Fixpoint str_all (p : ascii → bool) (s : string) : bool :=
  match s with
  | EmptyString => true
  | String c s' => p c && str_all p s'
  end.

(** The words of a first command. *)
Definition initial_argv (model_name query : string) (system_prompt : option string)
  : list string :=
  [ "claude"; "--model"; model_name; "--dangerously-skip-permissions"; "-p"; query ]
  ++ match system_prompt with
     | Some (String _ _ as sp) => [ "--system-prompt"; sp ]
     | Some EmptyString | None => []
     end.

(** *** scaffolds/base.py: [BaseScaffold.__repr__]

    [class_name] is the name of the class of [self]. *)
Definition __repr__ (class_name : string) (self : BaseScaffold) : string :=
  "<" +:+ class_name +:+ " name=" +:+ squote +:+ scaffold_name +:+ squote +:+ ">".

(** A character below 32. *)
Definition is_control (c : ascii) : bool := (N_of_ascii c <? 32)%N.
(** * Proofs *)

(** Case analysis on the 256 characters. *)
Ltac each_char x := destruct x as [[] [] [] [] [] [] [] []].

(** ** Appending strings *)

Lemma str_app_cons x s t : String x s +:+ t = String x (s +:+ t).
Proof. reflexivity. Qed.

Lemma str_app_nil_l t : "" +:+ t = t.
Proof. reflexivity. Qed.

Lemma str_app_nil_r s : s +:+ "" = s.
Proof. induction s as [|x s IH]; [reflexivity|]. now rewrite str_app_cons, IH. Qed.

Lemma str_app_assoc s t u : (s +:+ t) +:+ u = s +:+ (t +:+ u).
Proof. induction s as [|x s IH]; [reflexivity|]. now rewrite !str_app_cons, IH. Qed.

Lemma str_length_app s t : String.length (s +:+ t) = String.length s + String.length t.
Proof. induction s as [|x s IH]; [reflexivity|]. rewrite str_app_cons. cbn. now rewrite IH. Qed.

Lemma str_snoc_inj a b c : a +:+ String c "" = b +:+ String c "" → a = b.
Proof.
  revert b. induction a as [|x a IH]; intros [|y b] H; rewrite ?str_app_cons in H.
  - reflexivity.
  - injection H as _ H. now destruct b.
  - injection H as _ H. now destruct a.
  - injection H as -> H. f_equal. now apply IH.
Qed.

Lemma str_last_app u c v : str_last (u +:+ String c v) = str_last (String c v).
Proof.
  induction u as [|x u IH]; [reflexivity|].
  rewrite str_app_cons. cbn [str_last]. rewrite IH.
  destruct u; reflexivity.
Qed.

Lemma str_mem_app c a b : str_mem c (a +:+ b) = str_mem c a || str_mem c b.
Proof.
  induction a as [|x a IH]; [reflexivity|].
  rewrite str_app_cons. cbn [str_mem]. now rewrite IH, orb_assoc.
Qed.

Lemma str_flat_map_app f s t :
  str_flat_map f (s +:+ t) = str_flat_map f s +:+ str_flat_map f t.
Proof.
  induction s as [|x s IH]; [reflexivity|].
  rewrite str_app_cons. cbn [str_flat_map]. now rewrite IH, str_app_assoc.
Qed.

(** ** [str.replace] *)

Example replace_leftmost : Py.replace "aa" "b" "aaaaa" = "bba".
Proof. reflexivity. Qed.

Example replace_no_rescan : Py.replace "ab" "ba" "aabab" = "ababa".
Proof. reflexivity. Qed.

Example replace_empty_pattern : Py.replace "" "-" "abc" = "-a-b-c-".
Proof. reflexivity. Qed.

Section one_character_pattern.

Variables (c : ascii) (new : string).

Lemma prefix_single x s : String.prefix (String c "") (String x s) = (x =? c)%char.
Proof.
  cbn. destruct (Ascii.ascii_dec c x) as [->|Hne].
  - rewrite Ascii.eqb_refl. now destruct s.
  - symmetry. apply Ascii.eqb_neq. congruence.
Qed.

(** Replacing a one-character pattern substitutes each character on its own. *)
Lemma replace_single s :
  Py.replace (String c "") new s = str_flat_map (subst_char c new) s.
Proof.
  unfold Py.replace.
  induction s as [|x s IH]; [reflexivity|].
  cbn [Py.replace_from str_flat_map].
  rewrite prefix_single. unfold subst_char at 1.
  destruct (x =? c)%char; cbn; now rewrite IH.
Qed.

End one_character_pattern.

(** ** [_escape_for_shell] *)

Lemma escape_is_four_passes text : _escape_for_shell text = four_passes text.
Proof.
  unfold _escape_for_shell, four_passes, dquote.
  now rewrite !replace_single.
Qed.

Lemma four_passes_app s t : four_passes (s +:+ t) = four_passes s +:+ four_passes t.
Proof. unfold four_passes. now rewrite !str_flat_map_app. Qed.

(** On one character: the backslash pass runs before any backslash is
    inserted, and the later passes leave an inserted backslash alone. *)
Lemma four_passes_char x : four_passes (String x "") = escape_char x.
Proof. each_char x; reflexivity. Qed.

Lemma four_passes_cons x s : four_passes (String x s) = escape_char x +:+ four_passes s.
Proof.
  change (String x s) with (String x "" +:+ s).
  now rewrite four_passes_app, four_passes_char.
Qed.

Lemma escape_for_shell_chars text :
  _escape_for_shell text = str_flat_map escape_char text.
Proof.
  rewrite escape_is_four_passes.
  induction text as [|x s IH]; [reflexivity|].
  rewrite four_passes_cons, IH. reflexivity.
Qed.

Lemma escape_char_length x :
  String.length (escape_char x) = 1 + (if needs_escape x then 1 else 0).
Proof. unfold escape_char. now destruct (needs_escape x). Qed.

Lemma escaped_length s :
  String.length (str_flat_map escape_char s) = String.length s + str_count needs_escape s.
Proof.
  induction s as [|x s IH]; [reflexivity|].
  cbn [str_flat_map str_count String.length].
  rewrite str_length_app, escape_char_length, IH. lia.
Qed.

(** Reading the escaped text back between double quotes. *)
Lemma dq_literal_escaped s : Sh.dq_literal (str_flat_map escape_char s) = Some s.
Proof.
  induction s as [|x s IH]; [reflexivity|].
  cbn [str_flat_map].
  each_char x;
    cbn [escape_char needs_escape Ascii.eqb Bool.eqb orb bslash_c dquote_c dollar_c btick_c];
    rewrite ?str_app_cons, ?str_app_nil_l;
    cbn [Sh.dq_literal Sh.dq_escapable Sh.dq_special Ascii.eqb Bool.eqb orb
         bslash_c dquote_c dollar_c btick_c newline_c];
    rewrite IH; reflexivity.
Qed.

Lemma escape_for_shell_inj s t : _escape_for_shell s = _escape_for_shell t → s = t.
Proof.
  intros H. apply (f_equal Sh.dq_literal) in H.
  rewrite !escape_for_shell_chars, !dq_literal_escaped in H. congruence.
Qed.

(** The scenario of the specification: a query with a double quote and a
    dollar sign. *)
Example escape_say_home :
  let query := "say " +:+ dquote +:+ "$HOME" +:+ dquote in
  _escape_for_shell query = "say \" +:+ dquote +:+ "\$HOME\" +:+ dquote
  ∧ Sh.dq_literal (_escape_for_shell query) = Some query
  ∧ Sh.dq_literal query = None.
Proof. repeat split; reflexivity. Qed.

(** C1. [_escape_for_shell] puts one backslash before each backslash, double
    quote, dollar sign and backquote of the input and changes nothing else:
    the result is the input with each character replaced by its escaped form,
    one added character per special character; and the result, read as the
    content of a double-quoted POSIX shell string, is a literal text, namely
    the input. *)
Theorem escape_for_shell_double_quoted (text : string) :
  _escape_for_shell text = str_flat_map escape_char text
  ∧ String.length (_escape_for_shell text)
    = String.length text + str_count needs_escape text
  ∧ Sh.dq_literal (_escape_for_shell text) = Some text.
Proof.
  rewrite escape_for_shell_chars.
  split; [reflexivity|]. split; [apply escaped_length | apply dq_literal_escaped].
Qed.

(** ** The loop of [build_commands] *)

Section for_enumerate_facts.

Variable body : nat → string → string.

(** The loop appends to the list the body applied to each index and item. *)
Lemma for_enumerate_imap i xs commands :
  for_enumerate body i xs commands = commands ++ imap (λ j, body (i + j)) xs.
Proof.
  revert i commands. induction xs as [|x xs IH]; intros i commands; cbn.
  - now rewrite app_nil_r.
  - rewrite IH, <- app_assoc. cbn. rewrite Nat.add_0_r. do 2 f_equal.
    apply imap_ext. intros j y _. cbn. f_equal. lia.
Qed.

End for_enumerate_facts.

Section build_commands_facts.

Variables (system_prompt model : option string).

Let model_name := Py.or_else model DEFAULT_MODEL.

Lemma build_commands_imap queries :
  build_commands queries system_prompt model
  = imap (command_for model_name system_prompt) queries.
Proof. unfold build_commands. now rewrite for_enumerate_imap. Qed.

Lemma build_commands_lookup queries i :
  build_commands queries system_prompt model !! i
  = command_for model_name system_prompt i <$> queries !! i.
Proof. rewrite build_commands_imap. apply list_lookup_imap. Qed.

Lemma command_for_later name' i query :
  command_for name' system_prompt (S i) query = continuation_command query.
Proof.
  unfold command_for, continuation_command, query_arg. cbn [Nat.eqb].
  change "claude --dangerously-skip-permissions -c -p "
    with ("claude --dangerously-skip-permissions -c" +:+ " -p ").
  now rewrite !str_app_assoc.
Qed.

Lemma command_for_first name' query :
  command_for name' system_prompt 0 query
  = initial_command name' query
    +:+ (if Py.truthy system_prompt
         then system_prompt_arg (default "" system_prompt) else "").
Proof.
  unfold command_for, initial_command, query_arg, system_prompt_arg. cbn [Nat.eqb].
  destruct system_prompt as [[|c sp]|]; cbn [Py.truthy default];
    rewrite !str_app_assoc; reflexivity.
Qed.

Lemma command_for_first_head name' query :
  ∃ tail, command_for name' system_prompt 0 query
          = "claude --model " +:+ name' +:+ " --dangerously-skip-permissions" +:+ tail.
Proof.
  rewrite command_for_first. unfold initial_command.
  eexists. rewrite !str_app_assoc. reflexivity.
Qed.

Lemma build_commands_cons query queries :
  build_commands (query :: queries) system_prompt model
  = command_for model_name system_prompt 0 query
    :: (continuation_command <$> queries).
Proof.
  rewrite build_commands_imap. cbn [imap]. f_equal.
  rewrite <- (imap_const continuation_command). apply imap_ext.
  intros i q _. apply command_for_later.
Qed.

Lemma build_commands_later query queries i :
  build_commands (query :: queries) system_prompt model !! S i
  = continuation_command <$> queries !! i.
Proof. rewrite build_commands_cons. cbn [lookup list_lookup]. apply list_lookup_fmap. Qed.

End build_commands_facts.

(** ** Where a quoted argument ends *)

Lemma escaped_guarded s prev : quote_guarded prev (str_flat_map escape_char s) = true.
Proof.
  revert prev. induction s as [|x s IH]; intros prev; [reflexivity|].
  cbn [str_flat_map]. unfold escape_char, needs_escape.
  destruct (x =? bslash_c)%char eqn:Hb; [|destruct (x =? dquote_c)%char eqn:Hq];
    cbn [orb]; rewrite ?str_app_cons, ?str_app_nil_l; cbn [quote_guarded].
  - apply Ascii.eqb_eq in Hb as ->. cbn. apply IH.
  - apply Ascii.eqb_eq in Hq as ->. cbn. apply IH.
  - destruct ((x =? dollar_c)%char || (x =? btick_c)%char);
      rewrite ?str_app_cons, ?str_app_nil_l; cbn [quote_guarded];
      rewrite ?Hq, ?IH; reflexivity.
Qed.

Lemma escape_for_shell_guarded s prev : quote_guarded prev (_escape_for_shell s) = true.
Proof. rewrite escape_for_shell_chars. apply escaped_guarded. Qed.

(** A space followed by a double quote cannot occur in a guarded text. *)
Lemma guarded_no_space_quote prev z w :
  quote_guarded prev (z +:+ String " " (String dquote_c w)) = false.
Proof.
  revert prev. induction z as [|c z IH]; intros prev.
  - reflexivity.
  - rewrite str_app_cons. cbn [quote_guarded]. rewrite IH. apply andb_false_r.
Qed.

Section quoted_tail.

Variables e1 e2 : string.
Hypothesis G1 : quote_guarded " " e1 = true.
Hypothesis G2 : quote_guarded " " e2 = true.

(** The opening quote of one argument cannot lie inside the other. *)
Lemma quoted_tail_offset p e f w :
  quote_guarded p e = true →
  String dquote_c (e +:+ dquote) ≠ w +:+ String " " (String dquote_c (f +:+ dquote)).
Proof.
  destruct w as [|c w]; intros G H; [discriminate|].
  rewrite str_app_cons in H. injection H as Hc H. subst c.
  change (String " " (String dquote_c (f +:+ dquote)))
    with ((String " " (String dquote_c "")) +:+ (f +:+ dquote)) in H.
  rewrite <- !str_app_assoc in H. apply str_snoc_inj in H. subst e.
  rewrite str_app_assoc in G.
  change (String " " (String dquote_c "") +:+ f)
    with (String " " (String dquote_c f)) in G.
  now rewrite guarded_no_space_quote in G.
Qed.

(** Two texts that end with a quoted guarded argument after a space agree
    on the argument and on what precedes it. *)
Lemma quoted_tail_inj x y :
  x +:+ String " " (String dquote_c (e1 +:+ dquote))
  = y +:+ String " " (String dquote_c (e2 +:+ dquote)) →
  x = y ∧ e1 = e2.
Proof.
  revert y.
  induction x as [|c x IH]; intros [|d y] H; rewrite ?str_app_cons, ?str_app_nil_l in H.
  - injection H as H. apply str_snoc_inj in H. now subst.
  - injection H as Hc H. subst d. exfalso. now apply (quoted_tail_offset _ e1 e2 y G1).
  - injection H as Hc H. subst c. exfalso. now apply (quoted_tail_offset _ e2 e1 x G2).
  - injection H as Hc H. subst d. destruct (IH _ H) as [-> ->]. now split.
Qed.

End quoted_tail.

Lemma query_arg_shape q :
  query_arg q = " -p" +:+ String " " (String dquote_c (_escape_for_shell q +:+ dquote)).
Proof. reflexivity. Qed.

Lemma system_prompt_arg_shape sp :
  system_prompt_arg sp
  = " --system-prompt" +:+ String " " (String dquote_c (_escape_for_shell sp +:+ dquote)).
Proof. reflexivity. Qed.

(** A command that ends with a query argument does not end with a system
    prompt argument. *)
Lemma query_arg_not_system_prompt x q sp :
  ¬ str_suffix (system_prompt_arg sp) (x +:+ query_arg q).
Proof.
  intros [pre H]. rewrite query_arg_shape, system_prompt_arg_shape in H.
  rewrite <- !str_app_assoc in H.
  apply quoted_tail_inj in H as [H _]; try apply escape_for_shell_guarded.
  apply (f_equal str_last) in H.
  change " -p" with (String " " (String "-" (String "p" ""))) in H.
  change " --system-prompt" with (" --system-promp" +:+ String "t" "") in H.
  rewrite <- (str_app_assoc pre) in H.
  rewrite (str_last_app x), (str_last_app (pre +:+ _)) in H. discriminate.
Qed.

(** A command that ends with a system prompt argument ends with that one. *)
Lemma system_prompt_arg_unique x sp0 sp :
  str_suffix (system_prompt_arg sp) (x +:+ system_prompt_arg sp0) → sp = sp0.
Proof.
  intros [pre H]. rewrite !system_prompt_arg_shape in H.
  rewrite <- !str_app_assoc in H.
  apply quoted_tail_inj in H as [_ H]; try apply escape_for_shell_guarded.
  symmetry. now apply escape_for_shell_inj.
Qed.

Lemma continuation_not_system_prompt q sp :
  ¬ str_suffix (system_prompt_arg sp) (continuation_command q).
Proof. apply query_arg_not_system_prompt. Qed.

Lemma initial_not_system_prompt model_name q sp :
  ¬ str_suffix (system_prompt_arg sp) (initial_command model_name q).
Proof.
  unfold initial_command. rewrite <- !str_app_assoc.
  apply query_arg_not_system_prompt.
Qed.

(** ** The claims about [build_commands] *)

(** C2, amended. For a non-empty list of queries, the first command is
    exactly the model selection and the quoted escaped query, followed by
    the argument --system-prompt with the quoted escaped system prompt when
    a system prompt was supplied and is not the empty text, and by nothing
    otherwise.  So the first command ends with the argument carrying [sp]
    exactly when [sp] was supplied and is not empty.  Every later command
    is exactly the continuation command of its query, whatever the system
    prompt, and ends with no system prompt argument. *)
Theorem system_prompt_only_in_first_command
    (query : string) (queries : list string) (system_prompt model : option string) :
  ∃ first,
    build_commands (query :: queries) system_prompt model !! 0 = Some first
    ∧ first
      = "claude --model " +:+ Py.or_else model DEFAULT_MODEL
        +:+ " --dangerously-skip-permissions -p "
        +:+ dquote +:+ _escape_for_shell query +:+ dquote
        +:+ match system_prompt with
            | Some (String _ _ as sp) =>
                " --system-prompt " +:+ dquote +:+ _escape_for_shell sp +:+ dquote
            | Some EmptyString | None => ""
            end
    ∧ (∀ sp, str_suffix (system_prompt_arg sp) first
             ↔ system_prompt = Some sp ∧ sp ≠ "")
    ∧ (∀ i, build_commands (query :: queries) system_prompt model !! S i
            = (λ q, "claude --dangerously-skip-permissions -c -p "
                    +:+ dquote +:+ _escape_for_shell q +:+ dquote) <$> queries !! i)
    ∧ Forall (λ cmd, ∀ sp, ¬ str_suffix (system_prompt_arg sp) cmd)
        (drop 1 (build_commands (query :: queries) system_prompt model)).
Proof.
  rewrite build_commands_cons. eexists. split; [reflexivity|].
  split; [|split; [|split]].
  - unfold command_for. cbn [Nat.eqb].
    destruct system_prompt as [[|c s]|]; rewrite !str_app_assoc; reflexivity.
  - intros sp. rewrite command_for_first.
    destruct system_prompt as [[|c s]|]; cbn [Py.truthy default];
      rewrite ?str_app_nil_r.
    + split; [intros H; now apply initial_not_system_prompt in H|].
      intros [[= <-] Hne]. now destruct Hne.
    + split.
      * intros H. apply system_prompt_arg_unique in H. now subst.
      * intros [[= <-] _]. now eexists.
    + split; [intros H; now apply initial_not_system_prompt in H|].
      now intros [? _].
  - intros i. cbn [lookup list_lookup]. etrans; [apply list_lookup_fmap|].
    destruct (queries !! i); reflexivity.
  - cbn [drop]. apply Forall_fmap, Forall_forall. intros q _ sp.
    apply continuation_not_system_prompt.
Qed.

(** C2 as stated fails: a system prompt supplied as the empty text leaves
    the first command as it is without one, so no system prompt argument is
    there although one was supplied. *)
Lemma empty_system_prompt_not_rendered :
  build_commands ["q"] (Some "") None = build_commands ["q"] None None
  ∧ ¬ system_prompt_iff_supplied ["q"] (Some "") None.
Proof.
  split; [reflexivity|]. intros H.
  specialize (H (initial_command DEFAULT_MODEL "q") eq_refl) as [_ H].
  destruct H as [sp Hsp]; [now eexists|].
  now apply initial_not_system_prompt in Hsp.
Qed.

(** C3. The first command selects the model explicitly: the default model
    when the argument is absent, the given one when it is a non-empty text.
    Every later command is the continuation command, the same for every
    model argument, with no model selection before its query. *)
Theorem model_selection_only_in_first_command
    (query : string) (queries : list string) (system_prompt : option string) :
  (∃ tail, build_commands (query :: queries) system_prompt None !! 0
           = Some ("claude --model " +:+ DEFAULT_MODEL
                   +:+ " --dangerously-skip-permissions" +:+ tail))
  ∧ (∀ c m, ∃ tail,
        build_commands (query :: queries) system_prompt (Some (String c m)) !! 0
        = Some ("claude --model " +:+ String c m
                +:+ " --dangerously-skip-permissions" +:+ tail))
  ∧ (∀ model i,
        build_commands (query :: queries) system_prompt model !! S i
        = (λ q, "claude --dangerously-skip-permissions -c -p "
                +:+ dquote +:+ _escape_for_shell q +:+ dquote) <$> queries !! i).
Proof.
  split; [|split].
  - rewrite build_commands_cons.
    destruct (command_for_first_head system_prompt DEFAULT_MODEL query) as [tail H].
    exists tail. cbn [lookup list_lookup Py.or_else]. now rewrite H.
  - intros c m. rewrite build_commands_cons.
    destruct (command_for_first_head system_prompt (String c m) query) as [tail H].
    exists tail. cbn [lookup list_lookup Py.or_else]. now rewrite H.
  - intros model i. rewrite build_commands_later.
    destruct (queries !! i); reflexivity.
Qed.

(** C4. [build_commands] returns one command for each query, in order: the
    result is as long as the input, the command at index [i] is the loop
    body applied to [i] and the query at index [i], a fixed frame around
    the escaped query, and no query gives no command. *)
Theorem build_commands_index_aligned
    (queries : list string) (system_prompt model : option string) :
  length (build_commands queries system_prompt model) = length queries
  ∧ (∀ i, build_commands queries system_prompt model !! i
          = command_for (Py.or_else model DEFAULT_MODEL) system_prompt i <$> queries !! i)
  ∧ (∀ i, ∃ head tail,
        build_commands queries system_prompt model !! i
        = (λ query, head +:+ dquote +:+ _escape_for_shell query +:+ dquote +:+ tail)
            <$> queries !! i)
  ∧ build_commands [] system_prompt model = [].
Proof.
  split; [|split; [|split]].
  - rewrite build_commands_imap. apply length_imap.
  - intros i. apply build_commands_lookup.
  - intros i. rewrite build_commands_lookup.
    destruct i as [|i].
    + exists ("claude --model " +:+ Py.or_else model DEFAULT_MODEL
              +:+ " --dangerously-skip-permissions -p "),
             (if Py.truthy system_prompt
              then system_prompt_arg (default "" system_prompt) else "").
      destruct (queries !! 0); [|reflexivity].
      cbn [fmap option_fmap option_map]. f_equal.
      rewrite command_for_first. unfold initial_command, query_arg.
      now rewrite !str_app_assoc.
    + exists "claude --dangerously-skip-permissions -c -p ", "".
      destruct (queries !! S i); [|reflexivity].
      cbn [fmap option_fmap option_map]. now rewrite command_for_later.
  - reflexivity.
Qed.

(** C5. For every proxy endpoint and model argument, [get_docker_env]
    returns the mapping with exactly the keys ANTHROPIC_BASE_URL and
    ANTHROPIC_API_KEY, the first bound to the endpoint and the second to the
    placeholder fake-key; it has two entries, so it is not empty.  The
    mapping is this function of the endpoint alone, so two calls with the
    same inputs return the same mapping. *)
Theorem docker_env_fixed_keys (proxy_url : string) (model : option string) :
  get_docker_env proxy_url model
  = {[ "ANTHROPIC_BASE_URL" := proxy_url; "ANTHROPIC_API_KEY" := "fake-key" ]}
  ∧ dom (get_docker_env proxy_url model)
    = ({[ "ANTHROPIC_BASE_URL"; "ANTHROPIC_API_KEY" ]} : gset string)
  ∧ get_docker_env proxy_url model !! "ANTHROPIC_BASE_URL" = Some proxy_url
  ∧ get_docker_env proxy_url model !! "ANTHROPIC_API_KEY" = Some "fake-key"
  ∧ size (get_docker_env proxy_url model) = 2
  ∧ get_docker_env proxy_url model ≠ ∅.
Proof.
  assert (Hne : "ANTHROPIC_API_KEY" ≠ "ANTHROPIC_BASE_URL") by discriminate.
  unfold get_docker_env. split; [|split; [|split; [|split; [|split]]]].
  - apply map_eq. intros k.
    destruct (decide (k = "ANTHROPIC_API_KEY")) as [->|];
      [|destruct (decide (k = "ANTHROPIC_BASE_URL")) as [->|]];
      now simplify_map_eq.
  - rewrite !dom_insert_L, dom_empty_L. set_solver.
  - now simplify_map_eq.
  - now simplify_map_eq.
  - rewrite map_size_insert_None by now simplify_map_eq.
    now rewrite map_size_insert_None, map_size_empty.
  - intros H. apply (f_equal (λ m : gmap string string, m !! "ANTHROPIC_API_KEY")) in H.
    now simplify_map_eq.
Qed.

(** C7, amended. The model selector is not validated: every selector that
    is not the empty text, in the supported list or not, is written as it
    is after the model flag of the first command; the default model is
    written when the selector is absent, and the empty text is treated as
    absent.  The environment mapping and the setup script do not look at the
    selector.  The operations are total functions of their arguments: the
    source has no failing path for them. *)
Theorem model_selector_passed_through
    (query : string) (queries : list string) (system_prompt : option string)
    (proxy_url model : string) :
  model ≠ "" →
  (∃ tail,
      build_commands (query :: queries) system_prompt (Some model)
      = ("claude --model " +:+ model +:+ " --dangerously-skip-permissions" +:+ tail)
        :: (continuation_command <$> queries)
      ∧ build_commands (query :: queries) system_prompt None
        = ("claude --model " +:+ DEFAULT_MODEL
           +:+ " --dangerously-skip-permissions" +:+ tail)
          :: (continuation_command <$> queries))
  ∧ build_commands (query :: queries) system_prompt (Some "")
    = build_commands (query :: queries) system_prompt None
  ∧ get_docker_env proxy_url (Some model) = get_docker_env proxy_url None
  ∧ get_setup_script proxy_url (Some model) = get_setup_script proxy_url None.
Proof.
  intros Hne. split; [|split; [|split]]; try reflexivity.
  exists (query_arg query
          +:+ (if Py.truthy system_prompt
               then system_prompt_arg (default "" system_prompt) else "")).
  rewrite !build_commands_cons, command_for_first, command_for_first.
  unfold initial_command. rewrite !str_app_assoc.
  destruct model; [now destruct Hne|]. split; reflexivity.
Qed.

Lemma model_selector_passed_through_witness :
  "no-such-model" ≠ ""
  ∧ ("no-such-model" ∉ SUPPORTED_MODELS)
  ∧ ∃ tail,
      build_commands ["q"; "r"] None (Some "no-such-model")
      = ("claude --model " +:+ "no-such-model"
         +:+ " --dangerously-skip-permissions" +:+ tail)
        :: (continuation_command <$> ["r"])
      ∧ build_commands ["q"; "r"] None None
        = ("claude --model " +:+ DEFAULT_MODEL
           +:+ " --dangerously-skip-permissions" +:+ tail)
          :: (continuation_command <$> ["r"]).
Proof.
  split; [discriminate|]. split.
  - intros H. repeat (apply elem_of_cons in H as [H|H]; [discriminate|]).
    now apply elem_of_nil in H.
  - apply (model_selector_passed_through "q" ["r"] None "http://h" "no-such-model").
    discriminate.
Defined.

(** C7 as stated fails: the empty text is a selector outside the supported
    list, and the first command carries the default model instead of it. *)
Lemma empty_model_not_verbatim :
  build_commands ["q"] None (Some "") = build_commands ["q"] None None
  ∧ ¬ selector_passed_verbatim "q" None "".
Proof.
  split; [reflexivity|]. intros H.
  assert (Hout : "" ∉ SUPPORTED_MODELS).
  { intros Hin. repeat (apply elem_of_cons in Hin as [Hin|Hin]; [discriminate|]).
    now apply elem_of_nil in Hin. }
  specialize (H Hout). vm_compute in H. discriminate.
Qed.

(** C8. Two queries, a system prompt and no model: the first command
    selects the default model and carries the first query and the system
    prompt, the second is the continuation command of the second query
    alone; none of the three texts has a character to escape. *)
Theorem two_turn_scenario :
  build_commands ["list files"; "now delete the largest one"] (Some "be careful") None
  = [ "claude --model " +:+ DEFAULT_MODEL +:+ " --dangerously-skip-permissions -p "
        +:+ dquote +:+ "list files" +:+ dquote
        +:+ " --system-prompt " +:+ dquote +:+ "be careful" +:+ dquote;
      "claude --dangerously-skip-permissions -c -p "
        +:+ dquote +:+ "now delete the largest one" +:+ dquote ]
  ∧ _escape_for_shell "list files" = "list files"
  ∧ _escape_for_shell "be careful" = "be careful"
  ∧ _escape_for_shell "now delete the largest one" = "now delete the largest one".
Proof. repeat split; reflexivity. Qed.

(** C9. The model argument has no effect on the environment mapping or on
    the setup script: any two model values give the same output.  It does
    reach [build_commands]. *)
Theorem model_only_affects_commands (proxy_url : string) (model model' : option string) :
  get_docker_env proxy_url model = get_docker_env proxy_url model'
  ∧ get_setup_script proxy_url model = get_setup_script proxy_url model'
  ∧ build_commands ["q"] None (Some "gemini-3-pro") ≠ build_commands ["q"] None None.
Proof. repeat split. discriminate. Qed.

(** C10. The default model is one of the supported models, so the model the
    first command selects when the argument is absent is a supported one. *)
Theorem default_model_supported
    (query : string) (queries : list string) (system_prompt : option string) :
  DEFAULT_MODEL ∈ SUPPORTED_MODELS
  ∧ Py.or_else None DEFAULT_MODEL ∈ SUPPORTED_MODELS
  ∧ ∃ m tail, m ∈ SUPPORTED_MODELS
      ∧ build_commands (query :: queries) system_prompt None !! 0
        = Some ("claude --model " +:+ m +:+ " --dangerously-skip-permissions" +:+ tail).
Proof.
  assert (Hin : DEFAULT_MODEL ∈ SUPPORTED_MODELS) by apply list_elem_of_here.
  split; [exact Hin|]. split; [exact Hin|].
  destruct (command_for_first_head system_prompt DEFAULT_MODEL query) as [tail H].
  exists DEFAULT_MODEL, tail. split; [exact Hin|].
  rewrite build_commands_cons. cbn [lookup list_lookup Py.or_else]. now rewrite H.
Qed.

(** ** The JSON payload of the setup script *)

Lemma run_app m a b :
  Json.run m (a +:+ b)
  = match Json.run m a with
    | Some (ts, m') =>
        match Json.run m' b with
        | Some (ts', m'') => Some (ts ++ ts', m'')
        | None => None
        end
    | None => None
    end.
Proof.
  revert m. induction a as [|c a IH]; intros m.
  - rewrite str_app_nil_l. cbn. now destruct (Json.run m b) as [[? ?]|].
  - rewrite str_app_cons. cbn [Json.run].
    destruct (Json.step m c) as [[t m']|]; [|reflexivity].
    rewrite IH. destruct (Json.run m' a) as [[ts m'']|]; [|reflexivity].
    destruct (Json.run m'' b) as [[ts' m3]|]; [|reflexivity].
    now destruct t.
Qed.

Lemma lex_go_app m a b :
  Json.lex_go m (a +:+ b)
  = match Json.run m a with
    | Some (ts, m') => app ts <$> Json.lex_go m' b
    | None => None
    end.
Proof.
  revert m. induction a as [|c a IH]; intros m.
  - rewrite str_app_nil_l. cbn. now destruct (Json.lex_go m b).
  - rewrite str_app_cons. cbn [Json.run Json.lex_go].
    destruct (Json.step m c) as [[t m']|]; [|reflexivity].
    rewrite IH. destruct (Json.run m' a) as [[ts m'']|]; [|reflexivity].
    destruct (Json.lex_go m'' b); [|reflexivity]. now destruct t.
Qed.

(** The escape of one character reads back as that character. *)
Lemma run_encode_char acc x :
  Json.run (Json.Inside acc) (Json.encode_char x)
  = Some ([], Json.Inside (acc +:+ String x "")).
Proof. each_char x; reflexivity. Qed.

Lemma run_encoded acc s :
  Json.run (Json.Inside acc) (str_flat_map Json.encode_char s)
  = Some ([], Json.Inside (acc +:+ s)).
Proof.
  revert acc. induction s as [|x s IH]; intros acc.
  - cbn. now rewrite str_app_nil_r.
  - cbn [str_flat_map]. rewrite run_app, run_encode_char, IH.
    now rewrite str_app_assoc.
Qed.

(** A string written by [dumps] is read back by [loads]. *)
Lemma loads_encode_string s : Json.loads (Json.encode_string s) = Some (Json.Str s).
Proof.
  unfold Json.loads, Json.lex, Json.encode_string, dquote.
  rewrite str_app_cons, str_app_nil_l. cbn [Json.lex_go Json.step].
  cbn [Json.is_ws Ascii.eqb Bool.eqb dquote_c orb andb].
  rewrite lex_go_app, run_encoded, str_app_nil_l. reflexivity.
Qed.

Lemma encode_char_no_squote x :
  str_mem squote_c (Json.encode_char x) = (x =? squote_c)%char.
Proof. each_char x; reflexivity. Qed.

Lemma encoded_no_squote s :
  str_mem squote_c (str_flat_map Json.encode_char s) = str_mem squote_c s.
Proof.
  induction s as [|x s IH]; [reflexivity|].
  cbn [str_flat_map str_mem]. now rewrite str_mem_app, encode_char_no_squote, IH.
Qed.

Lemma sq_read_closed s after :
  str_mem squote_c s = false → Sh.sq_read (s +:+ String squote_c after) = Some (s, after).
Proof.
  induction s as [|x s IH]; intros H.
  - reflexivity.
  - cbn [str_mem] in H. apply orb_false_iff in H as [Hx Hs].
    rewrite str_app_cons. cbn [Sh.sq_read]. now rewrite Hx, IH.
Qed.

Lemma dumps_settings proxy_url :
  Json.dumps (settings proxy_url)
  = payload_before +:+ str_flat_map Json.encode_char proxy_url +:+ payload_after.
Proof.
  unfold settings, payload_before, payload_after.
  cbn [Json.dumps map Json.join fst snd Json.encode_string].
  unfold Json.encode_string.
  rewrite !str_app_assoc. reflexivity.
Qed.

Lemma lex_settings proxy_url :
  Json.lex (Json.dumps (settings proxy_url))
  = Some ([ Json.TLBrace; Json.TStr "env"; Json.TColon; Json.TLBrace;
            Json.TStr "ANTHROPIC_BASE_URL"; Json.TColon; Json.TStr proxy_url;
            Json.TRBrace; Json.TComma; Json.TStr "permissions"; Json.TColon;
            Json.TLBrace; Json.TStr "allow"; Json.TColon; Json.TLBrack ]
          ++ tail (concat ((λ p, [Json.TComma; Json.TStr p]) <$> ALLOWED_PERMISSIONS))
          ++ [ Json.TRBrack; Json.TRBrace; Json.TRBrace ]).
Proof.
  rewrite dumps_settings. unfold Json.lex.
  rewrite lex_go_app.
  change (Json.run Json.Outside payload_before)
    with (Some ([ Json.TLBrace; Json.TStr "env"; Json.TColon; Json.TLBrace;
                  Json.TStr "ANTHROPIC_BASE_URL"; Json.TColon ], Json.Inside "")).
  cbv beta iota. rewrite lex_go_app, run_encoded, str_app_nil_l.
  reflexivity.
Qed.


Lemma loads_settings proxy_url :
  Json.loads (Json.dumps (settings proxy_url)) = Some (settings proxy_url).
Proof. unfold Json.loads. rewrite lex_settings. reflexivity. Qed.

Lemma settings_no_squote proxy_url :
  str_mem squote_c (Json.dumps (settings proxy_url)) = str_mem squote_c proxy_url.
Proof.
  rewrite dumps_settings, !str_mem_app, encoded_no_squote.
  change (str_mem squote_c payload_before) with false.
  change (str_mem squote_c payload_after) with false.
  now rewrite orb_false_r.
Qed.

(** C6. When the proxy endpoint has no single quote, the setup script is
    the creation of the configuration directory followed by the writing of
    one file, whose single-quoted content is read back whole and, parsed as
    JSON, is the object with the endpoint under env.ANTHROPIC_BASE_URL and
    the allow-list under permissions.allow, and nothing else. *)
Theorem setup_script_payload (proxy_url : string) (model : option string) :
  str_mem squote_c proxy_url = false →
  ∃ payload,
    get_setup_script proxy_url model
    = "mkdir -p ~/.claude && echo " +:+ squote +:+ payload +:+ squote
      +:+ " > ~/.claude/settings.json"
    ∧ Sh.sq_read (payload +:+ squote +:+ " > ~/.claude/settings.json")
      = Some (payload, " > ~/.claude/settings.json")
    ∧ Json.loads payload
      = Some (Json.Obj
                [ ("env", Json.Obj [ ("ANTHROPIC_BASE_URL", Json.Str proxy_url) ]);
                  ("permissions",
                   Json.Obj [ ("allow", Json.Arr (Json.Str <$> ALLOWED_PERMISSIONS)) ]) ]).
Proof.
  intros Hq. exists (Json.dumps (settings proxy_url)).
  split; [reflexivity|]. split.
  - apply sq_read_closed. now rewrite settings_no_squote.
  - apply loads_settings.
Qed.

Lemma setup_script_payload_witness :
  str_mem squote_c "http://host.docker.internal:4000" = false
  ∧ ∃ payload,
      get_setup_script "http://host.docker.internal:4000" None
      = "mkdir -p ~/.claude && echo " +:+ squote +:+ payload +:+ squote
        +:+ " > ~/.claude/settings.json"
      ∧ Sh.sq_read (payload +:+ squote +:+ " > ~/.claude/settings.json")
        = Some (payload, " > ~/.claude/settings.json")
      ∧ Json.loads payload
        = Some (Json.Obj
                  [ ("env", Json.Obj [ ("ANTHROPIC_BASE_URL",
                                        Json.Str "http://host.docker.internal:4000") ]);
                    ("permissions",
                     Json.Obj [ ("allow", Json.Arr (Json.Str <$> ALLOWED_PERMISSIONS)) ]) ]).
Proof.
  split; [reflexivity|].
  apply (setup_script_payload "http://host.docker.internal:4000" None). reflexivity.
Defined.

(** With a single quote in the endpoint the quoted content stops there and
    is not a JSON text. *)
Example setup_script_single_quote :
  ∃ before after,
    get_setup_script ("a" +:+ squote +:+ "b") None
    = "mkdir -p ~/.claude && echo " +:+ squote +:+ before +:+ squote +:+ after
    ∧ Sh.sq_read (before +:+ squote +:+ after) = Some (before, after)
    ∧ Json.loads before = None.
Proof.
  exists (payload_before +:+ "a"), ("b" +:+ payload_after +:+ squote
                                    +:+ " > ~/.claude/settings.json").
  repeat split; reflexivity.
Qed.

(** * Further properties of the code *)

(** ** [_escape_for_shell] *)

(** X1. Escaping distributes over concatenation: a text can be escaped
    piece by piece. *)
Theorem escape_for_shell_app (a b : string) :
  _escape_for_shell (a +:+ b) = _escape_for_shell a +:+ _escape_for_shell b.
Proof. rewrite !escape_for_shell_chars. apply str_flat_map_app. Qed.

(** X2. Escaping loses nothing: two texts with the same escaped form are
    the same text. *)
Theorem escape_for_shell_injective (s t : string) :
  _escape_for_shell s = _escape_for_shell t → s = t.
Proof. apply escape_for_shell_inj. Qed.

Lemma escape_for_shell_injective_witness :
  _escape_for_shell "a$b" = _escape_for_shell ("a" +:+ "$b") ∧ "a$b" = "a" +:+ "$b".
Proof.
  split; [reflexivity|].
  apply (escape_for_shell_injective "a$b" ("a" +:+ "$b")). reflexivity.
Defined.

Lemma str_count_le p s : str_count p s ≤ String.length s.
Proof.
  induction s as [|x s IH]; [reflexivity|].
  cbn [str_count String.length]. destruct (p x); lia.
Qed.

Lemma escaped_fixed s :
  str_count needs_escape s = 0 → str_flat_map escape_char s = s.
Proof.
  induction s as [|x s IH]; [reflexivity|].
  cbn [str_count str_flat_map]. unfold escape_char at 1.
  destruct (needs_escape x); [discriminate|].
  intros H. rewrite IH by exact H. reflexivity.
Qed.

(** X3. A text is left as it is exactly when it has none of the four
    characters. *)
Theorem escape_for_shell_fixed_iff (text : string) :
  _escape_for_shell text = text ↔ str_count needs_escape text = 0.
Proof.
  rewrite escape_for_shell_chars. split.
  - intros H. apply (f_equal String.length) in H.
    rewrite escaped_length in H. lia.
  - apply escaped_fixed.
Qed.


Lemma str_count_app p a b : str_count p (a +:+ b) = str_count p a + str_count p b.
Proof.
  induction a as [|x a IH]; [reflexivity|].
  rewrite str_app_cons. cbn [str_count]. rewrite IH. lia.
Qed.



(** X5. The escaped text is at least as long as the text and at most
    twice as long. *)
Theorem escape_for_shell_length_bounds (text : string) :
  String.length text ≤ String.length (_escape_for_shell text) ≤ 2 * String.length text.
Proof.
  rewrite escape_for_shell_chars, escaped_length.
  pose proof (str_count_le needs_escape text). lia.
Qed.

(** ** The words of the commands *)


Lemma argv_run_app m a b :
  Argv.run m (a +:+ b)
  = match Argv.run m a with
    | Some (ws, m') =>
        match Argv.run m' b with
        | Some (ws', m'') => Some (ws ++ ws', m'')
        | None => None
        end
    | None => None
    end.
Proof.
  revert m. induction a as [|c a IH]; intros m.
  - rewrite str_app_nil_l. cbn. now destruct (Argv.run m b) as [[? ?]|].
  - rewrite str_app_cons. cbn [Argv.run].
    destruct (Argv.step m c) as [[w m']|]; [|reflexivity].
    rewrite IH. destruct (Argv.run m' a) as [[ws m'']|]; [|reflexivity].
    destruct (Argv.run m'' b) as [[ws' m3]|]; [|reflexivity].
    now destruct w.
Qed.

Lemma fields_go_app m a b :
  Argv.fields_go m (a +:+ b)
  = match Argv.run m a with
    | Some (ws, m') => app ws <$> Argv.fields_go m' b
    | None => None
    end.
Proof.
  revert m. induction a as [|c a IH]; intros m.
  - rewrite str_app_nil_l. cbn. now destruct (Argv.fields_go m b).
  - rewrite str_app_cons. cbn [Argv.run Argv.fields_go].
    destruct (Argv.step m c) as [[w m']|]; [|reflexivity].
    rewrite IH. destruct (Argv.run m' a) as [[ws m'']|]; [|reflexivity].
    destruct (Argv.fields_go m'' b); [|reflexivity]. now destruct w.
Qed.

(** An escaped character inside double quotes adds that character. *)
Lemma argv_run_escape_char acc x :
  Argv.run (Argv.Quoted acc) (escape_char x)
  = Some ([], Argv.Quoted (acc +:+ String x "")).
Proof. each_char x; reflexivity. Qed.

Lemma argv_run_escaped acc s :
  Argv.run (Argv.Quoted acc) (_escape_for_shell s) = Some ([], Argv.Quoted (acc +:+ s)).
Proof.
  rewrite escape_for_shell_chars.
  revert acc. induction s as [|x s IH]; intros acc.
  - cbn. now rewrite str_app_nil_r.
  - cbn [str_flat_map]. rewrite argv_run_app, argv_run_escape_char, IH.
    now rewrite str_app_assoc.
Qed.

(** A quoted argument after a word boundary is one word, the text it
    escapes. *)
Lemma argv_run_quoted text :
  Argv.run Argv.Blank (dquote +:+ _escape_for_shell text +:+ dquote)
  = Some ([], Argv.Word text).
Proof.
  unfold dquote at 1. rewrite str_app_cons, str_app_nil_l.
  cbn [Argv.run Argv.step Argv.blank Ascii.eqb Bool.eqb dquote_c orb andb].
  rewrite argv_run_app, argv_run_escaped, str_app_nil_l. reflexivity.
Qed.

Lemma plain_not_special x :
  Argv.plain x = true → Argv.blank x = false ∧ (x =? dquote_c)%char = false.
Proof. each_char x; intros H; first [discriminate H | split; reflexivity]. Qed.

Lemma argv_run_plain acc s :
  str_all Argv.plain s = true →
  Argv.run (Argv.Word acc) s = Some ([], Argv.Word (acc +:+ s)).
Proof.
  revert acc. induction s as [|x s IH]; intros acc H.
  - cbn. now rewrite str_app_nil_r.
  - cbn [str_all] in H. apply andb_true_iff in H as [Hx Hs].
    cbn [Argv.run Argv.step].
    destruct (plain_not_special x Hx) as [-> ->].
    rewrite Hx, IH by exact Hs. now rewrite str_app_assoc.
Qed.

Lemma argv_run_plain_word c s :
  str_all Argv.plain (String c s) = true →
  Argv.run Argv.Blank (String c s) = Some ([], Argv.Word (String c s)).
Proof.
  intros H. cbn [str_all] in H. apply andb_true_iff in H as [Hc Hs].
  cbn [Argv.run Argv.step].
  destruct (plain_not_special c Hc) as [-> ->].
  rewrite Hc, argv_run_plain by exact Hs. reflexivity.
Qed.

Lemma fields_of_run s :
  Argv.fields s
  = match Argv.run Argv.Blank s with
    | Some (ws, m) => app ws <$> Argv.fields_go m ""
    | None => None
    end.
Proof. unfold Argv.fields. rewrite <- (str_app_nil_r s) at 1. apply fields_go_app. Qed.

Lemma argv_run_query_arg w query :
  Argv.run (Argv.Word w) (query_arg query) = Some ([w; "-p"], Argv.Word query).
Proof.
  unfold query_arg. rewrite argv_run_app.
  change (Argv.run (Argv.Word w) " -p ") with (Some ([w; "-p"], Argv.Blank)).
  cbv beta iota. now rewrite argv_run_quoted.
Qed.

Lemma argv_run_system_prompt_arg w sp :
  Argv.run (Argv.Word w) (system_prompt_arg sp)
  = Some ([w; "--system-prompt"], Argv.Word sp).
Proof.
  unfold system_prompt_arg. rewrite argv_run_app.
  change (Argv.run (Argv.Word w) " --system-prompt ")
    with (Some ([w; "--system-prompt"], Argv.Blank)).
  cbv beta iota. now rewrite argv_run_quoted.
Qed.

Lemma argv_run_continuation query :
  Argv.run Argv.Blank (continuation_command query)
  = Some (["claude"; "--dangerously-skip-permissions"; "-c"; "-p"], Argv.Word query).
Proof.
  unfold continuation_command. rewrite argv_run_app.
  change (Argv.run Argv.Blank "claude --dangerously-skip-permissions -c")
    with (Some (["claude"; "--dangerously-skip-permissions"], Argv.Word "-c")).
  cbv beta iota. now rewrite argv_run_query_arg.
Qed.

(** The words up to the model selector, for a selector read from [m]. *)
Lemma argv_run_after_model w query :
  Argv.run (Argv.Word w) (" --dangerously-skip-permissions" +:+ query_arg query)
  = Some ([w; "--dangerously-skip-permissions"; "-p"], Argv.Word query).
Proof.
  rewrite argv_run_app.
  change (Argv.run (Argv.Word w) " --dangerously-skip-permissions")
    with (Some ([w], Argv.Word "--dangerously-skip-permissions")).
  cbv beta iota. now rewrite argv_run_query_arg.
Qed.

Lemma argv_run_initial model_name query :
  str_all Argv.plain model_name = true → model_name ≠ "" →
  Argv.run Argv.Blank (initial_command model_name query)
  = Some (["claude"; "--model"; model_name; "--dangerously-skip-permissions"; "-p"],
          Argv.Word query).
Proof.
  intros Hp Hne. unfold initial_command. rewrite argv_run_app.
  change (Argv.run Argv.Blank "claude --model ")
    with (Some (["claude"; "--model"], Argv.Blank)).
  cbv beta iota. rewrite argv_run_app.
  destruct model_name as [|c s]; [now destruct Hne|].
  rewrite argv_run_plain_word by exact Hp.
  now rewrite argv_run_after_model.
Qed.

Lemma fields_command_for_first model_name system_prompt query :
  str_all Argv.plain model_name = true → model_name ≠ "" →
  Argv.fields (command_for model_name system_prompt 0 query)
  = Some (initial_argv model_name query system_prompt).
Proof.
  intros Hp Hne. rewrite command_for_first, fields_of_run, argv_run_app.
  rewrite argv_run_initial by assumption.
  destruct system_prompt as [[|c sp]|]; cbn [Py.truthy default]; try reflexivity.
  now rewrite argv_run_system_prompt_arg.
Qed.


Lemma or_else_nonempty model : Py.or_else model DEFAULT_MODEL ≠ "".
Proof. now destruct model as [[|c s]|]. Qed.

(** X6. Read by a shell, every command after the first is the five words
    claude, --dangerously-skip-permissions, -c, -p and the query itself:
    whatever the query holds (quotes, dollar signs, backquotes, blanks, the
    empty text), it is one argument and nothing of it is expanded. *)
Theorem later_commands_argv
    (query : string) (queries : list string) (system_prompt model : option string) :
  Argv.fields <$> drop 1 (build_commands (query :: queries) system_prompt model)
  = (λ q, Some ["claude"; "--dangerously-skip-permissions"; "-c"; "-p"; q]) <$> queries.
Proof.
  rewrite build_commands_cons. cbn [drop]. rewrite drop_0, <- list_fmap_compose.
  apply list_fmap_ext. intros i q _. cbn.
  now rewrite fields_of_run, argv_run_continuation.
Qed.

(** X7. When the model name written on the first command (the selector, or
    the default model) is made of letters, digits and -_./: the first
    command, read by a shell, is the words claude, --model, the model name,
    --dangerously-skip-permissions, -p and the query, followed by
    --system-prompt and the system prompt when a non-empty one was given:
    the query and the system prompt are each one argument, unchanged. *)
Theorem first_command_argv
    (query : string) (queries : list string) (system_prompt model : option string) :
  str_all Argv.plain (Py.or_else model DEFAULT_MODEL) = true →
  Argv.fields <$> build_commands (query :: queries) system_prompt model !! 0
  = Some (Some (initial_argv (Py.or_else model DEFAULT_MODEL) query system_prompt)).
Proof.
  intros Hp. rewrite build_commands_cons. cbn [lookup list_lookup fmap option_fmap option_map].
  rewrite fields_command_for_first; [reflexivity|exact Hp|apply or_else_nonempty].
Qed.

Lemma first_command_argv_witness :
  str_all Argv.plain (Py.or_else None DEFAULT_MODEL) = true
  ∧ Argv.fields
      <$> build_commands ["say " +:+ dquote +:+ "$HOME" +:+ dquote; "next"]
            (Some "be `careful`") None !! 0
    = Some (Some ["claude"; "--model"; DEFAULT_MODEL; "--dangerously-skip-permissions";
                  "-p"; "say " +:+ dquote +:+ "$HOME" +:+ dquote;
                  "--system-prompt"; "be `careful`"]).
Proof.
  split; [reflexivity|].
  apply (first_command_argv ("say " +:+ dquote +:+ "$HOME" +:+ dquote) ["next"]
           (Some "be `careful`") None).
  reflexivity.
Defined.

(** X8. The model selector is written without quotes: a selector made of
    two plain words separated by a space reaches the shell as two words, so
    the second is read as an argument of its own. *)
Theorem model_selector_not_quoted
    (a b query : string) (queries : list string) (system_prompt : option string) :
  str_all Argv.plain a = true → a ≠ "" →
  str_all Argv.plain b = true → b ≠ "" →
  Argv.fields
    <$> build_commands (query :: queries) system_prompt (Some (a +:+ " " +:+ b)) !! 0
  = Some (Some (["claude"; "--model"; a; b; "--dangerously-skip-permissions"; "-p"; query]
                ++ match system_prompt with
                   | Some (String _ _ as sp) => ["--system-prompt"; sp]
                   | _ => []
                   end)).
Proof.
  intros Ha Hane Hb Hbne. rewrite build_commands_cons.
  cbn [lookup list_lookup fmap option_fmap option_map]. do 2 f_equal.
  destruct a as [|c a]; [now destruct Hane|]. destruct b as [|d b]; [now destruct Hbne|].
  rewrite str_app_cons. cbn [Py.or_else]. rewrite <- str_app_cons.
  rewrite command_for_first, fields_of_run, argv_run_app.
  unfold initial_command. rewrite !str_app_assoc.
  rewrite argv_run_app.
  change (Argv.run Argv.Blank "claude --model ")
    with (Some (["claude"; "--model"], Argv.Blank)).
  cbv beta iota. rewrite argv_run_app, argv_run_plain_word by exact Ha.
  rewrite argv_run_app.
  change (Argv.run (Argv.Word (String c a)) " ") with (Some ([String c a], Argv.Blank)).
  cbv beta iota. rewrite argv_run_app, argv_run_plain_word by exact Hb.
  rewrite argv_run_after_model.
  destruct system_prompt as [[|e sp]|]; cbn [Py.truthy default]; try reflexivity.
  now rewrite argv_run_system_prompt_arg.
Qed.

Lemma model_selector_not_quoted_witness :
  Argv.fields <$> build_commands ["q"] None (Some ("gemini-3-pro" +:+ " " +:+ "--help")) !! 0
  = Some (Some (["claude"; "--model"; "gemini-3-pro"; "--help";
                 "--dangerously-skip-permissions"; "-p"; "q"] ++ [])).
Proof.
  apply (model_selector_not_quoted "gemini-3-pro" "--help" "q" [] None);
    first [reflexivity | discriminate].
Defined.

(** ** How [build_commands] composes *)

(** X9. Follow-up queries only add commands: the commands for a
    conversation extended by more queries are the commands of the
    conversation followed by the later-turn commands of the new queries,
    which depend on nothing but those queries. *)
Theorem build_commands_extend
    (query query' : string) (queries more : list string)
    (system_prompt model system_prompt' model' : option string) :
  build_commands (query :: queries ++ more) system_prompt model
  = build_commands (query :: queries) system_prompt model
    ++ drop 1 (build_commands (query' :: more) system_prompt' model').
Proof.
  rewrite !build_commands_cons. cbn [drop]. rewrite drop_0, fmap_app. reflexivity.
Qed.

Lemma str_app_inj_len a b r r' :
  String.length a = String.length b → a +:+ r = b +:+ r' → a = b.
Proof.
  revert b. induction a as [|x a IH]; intros [|y b] Hl H; try discriminate.
  - reflexivity.
  - rewrite !str_app_cons in H. injection H as -> H.
    f_equal. apply IH; [now injection Hl | exact H].
Qed.

Lemma str_app_inj_r a b r : a +:+ r = b +:+ r → a = b.
Proof.
  intros H. apply (str_app_inj_len a b r r); [|exact H].
  apply (f_equal String.length) in H. rewrite !str_length_app in H. lia.
Qed.

Lemma str_app_inj_l p a b : p +:+ a = p +:+ b → a = b.
Proof. induction p as [|x p IH]; [easy|]. rewrite !str_app_cons. intros [= H]. auto. Qed.

Lemma query_arg_inj q q' t : query_arg q +:+ t = query_arg q' +:+ t → q = q'.
Proof.
  unfold query_arg. rewrite !str_app_assoc. intros H.
  do 2 apply str_app_inj_l in H. rewrite <- !str_app_assoc in H.
  apply str_app_inj_r in H. apply str_app_inj_r in H.
  now apply escape_for_shell_inj.
Qed.

Lemma command_for_inj model_name system_prompt i q q' :
  command_for model_name system_prompt i q = command_for model_name system_prompt i q' →
  q = q'.
Proof.
  destruct i as [|i].
  - rewrite !command_for_first. unfold initial_command. rewrite !str_app_assoc.
    intros H. do 3 apply str_app_inj_l in H. now apply query_arg_inj in H.
  - rewrite !command_for_later. unfold continuation_command.
    intros H. apply str_app_inj_l in H.
    apply (query_arg_inj q q' ""). now rewrite !str_app_nil_r.
Qed.

Lemma imap_inj {A B} (f : nat → A → B) (l l' : list A) :
  (∀ i x y, f i x = f i y → x = y) → imap f l = imap f l' → l = l'.
Proof.
  revert f l'. induction l as [|x l IH]; intros f [|y l'] Hf H; try discriminate.
  - reflexivity.
  - cbn [imap] in H. injection H as Hx H. f_equal.
    + now apply (Hf 0).
    + apply (IH (f ∘ S)); [|exact H]. intros i a b. apply Hf.
Qed.

(** X10. The commands determine the queries: with the same system prompt
    and model, two lists of queries that give the same commands are the
    same list. *)
Theorem build_commands_injective
    (queries queries' : list string) (system_prompt model : option string) :
  build_commands queries system_prompt model = build_commands queries' system_prompt model →
  queries = queries'.
Proof.
  rewrite !build_commands_imap. apply imap_inj.
  intros i q q'. apply command_for_inj.
Qed.

Lemma build_commands_injective_witness :
  build_commands ["a$b"; "c"] None None = build_commands ["a" +:+ "$b"; "c"] None None
  ∧ ["a$b"; "c"] = ["a" +:+ "$b"; "c"].
Proof.
  split; [reflexivity|].
  apply (build_commands_injective ["a$b"; "c"] ["a" +:+ "$b"; "c"] None None). reflexivity.
Defined.

(** ** The setup script *)

(** X11. For every endpoint, whatever characters it holds, the text the
    script writes between the quotes of its echo is a JSON text that decodes
    to the settings: the endpoint under env.ANTHROPIC_BASE_URL, unchanged,
    and the allow-list under permissions.allow. *)
Theorem setup_payload_round_trip (proxy_url : string) (model : option string) :
  ∃ payload,
    get_setup_script proxy_url model
    = "mkdir -p ~/.claude && echo " +:+ squote +:+ payload +:+ squote
      +:+ " > ~/.claude/settings.json"
    ∧ Json.loads payload
      = Some (Json.Obj
                [ ("env", Json.Obj [ ("ANTHROPIC_BASE_URL", Json.Str proxy_url) ]);
                  ("permissions",
                   Json.Obj [ ("allow", Json.Arr (Json.Str <$> ALLOWED_PERMISSIONS)) ]) ]).
Proof.
  exists (Json.dumps (settings proxy_url)). split; [reflexivity|apply loads_settings].
Qed.

Lemma lex_go_unclosed acc : Json.lex_go (Json.Inside acc) "" = None.
Proof. reflexivity. Qed.

(** X12. A single quote in the endpoint is written as it is, so it closes
    the quoted text of the echo: what the shell reads as the content stops
    at the part of the endpoint before the quote, and is not a JSON text. *)
Theorem setup_script_single_quote_cut (a b : string) (model : option string) :
  str_mem squote_c a = false →
  ∃ content after,
    get_setup_script (a +:+ squote +:+ b) model
    = "mkdir -p ~/.claude && echo " +:+ squote +:+ content +:+ squote +:+ after
    ∧ Sh.sq_read (content +:+ squote +:+ after) = Some (content, after)
    ∧ content = payload_before +:+ str_flat_map Json.encode_char a
    ∧ Json.loads content = None.
Proof.
  intros Ha.
  exists (payload_before +:+ str_flat_map Json.encode_char a),
         (str_flat_map Json.encode_char b +:+ payload_after +:+ squote
          +:+ " > ~/.claude/settings.json").
  split; [|split; [|split]].
  - unfold get_setup_script. cbv zeta. rewrite dumps_settings, !str_flat_map_app.
    change (str_flat_map Json.encode_char squote) with squote.
    rewrite !str_app_assoc. reflexivity.
  - apply sq_read_closed. rewrite str_mem_app, encoded_no_squote, Ha. reflexivity.
  - reflexivity.
  - unfold Json.loads, Json.lex. rewrite <- (str_app_nil_r (str_flat_map _ a)).
    rewrite lex_go_app.
    change (Json.run Json.Outside payload_before)
      with (Some ([ Json.TLBrace; Json.TStr "env"; Json.TColon; Json.TLBrace;
                    Json.TStr "ANTHROPIC_BASE_URL"; Json.TColon ], Json.Inside "")).
    cbv beta iota. rewrite lex_go_app, run_encoded. reflexivity.
Qed.

Lemma setup_script_single_quote_cut_witness :
  str_mem squote_c "http://h" = false
  ∧ ∃ content after,
      get_setup_script ("http://h" +:+ squote +:+ "; reboot") None
      = "mkdir -p ~/.claude && echo " +:+ squote +:+ content +:+ squote +:+ after
      ∧ Sh.sq_read (content +:+ squote +:+ after) = Some (content, after)
      ∧ content = payload_before +:+ str_flat_map Json.encode_char "http://h"
      ∧ Json.loads content = None.
Proof.
  split; [reflexivity|].
  apply (setup_script_single_quote_cut "http://h" "; reboot" None). reflexivity.
Defined.

Lemma encode_char_no_control x : str_count is_control (Json.encode_char x) = 0.
Proof. each_char x; reflexivity. Qed.

Lemma encoded_no_control s : str_count is_control (str_flat_map Json.encode_char s) = 0.
Proof.
  induction s as [|x s IH]; [reflexivity|].
  cbn [str_flat_map]. now rewrite str_count_app, encode_char_no_control, IH.
Qed.

(** X13. The setup script is a single line for every endpoint: it holds no
    newline and no other character below 32, since the JSON encoding writes
    those of the endpoint as escapes. *)
Theorem setup_script_no_control (proxy_url : string) (model : option string) :
  str_count is_control (get_setup_script proxy_url model) = 0
  ∧ str_mem newline_c (get_setup_script proxy_url model) = false.
Proof.
  assert (H : str_count is_control (get_setup_script proxy_url model) = 0).
  { unfold get_setup_script. cbv zeta.
    rewrite dumps_settings, !str_count_app, encoded_no_control. reflexivity. }
  split; [exact H|].
  revert H. generalize (get_setup_script proxy_url model).
  induction s as [|x s IH]; [reflexivity|].
  cbn [str_count str_mem]. intros H.
  destruct (x =? newline_c)%char eqn:Hx.
  - apply Ascii.eqb_eq in Hx as ->. discriminate H.
  - apply IH. destruct (is_control x); [discriminate H|exact H].
Qed.

(** ** [BaseScaffold.__repr__] *)

Example repr_claudecode :
  __repr__ "ClaudeCodeScaffold" ClaudeCodeScaffold
  = "<ClaudeCodeScaffold name=" +:+ squote +:+ "claudecode" +:+ squote +:+ ">".
Proof. reflexivity. Qed.

Lemma str_split_at_space c1 c2 r1 r2 :
  str_mem " " c1 = false → str_mem " " c2 = false →
  c1 +:+ String " " r1 = c2 +:+ String " " r2 → c1 = c2 ∧ r1 = r2.
Proof.
  revert c2. induction c1 as [|x c1 IH]; intros [|y c2] H1 H2 H;
    rewrite ?str_app_cons, ?str_app_nil_l in H.
  - injection H as H. now split.
  - injection H as Hy _. subst y. discriminate H2.
  - injection H as Hx _. subst x. discriminate H1.
  - injection H as Hx H. subst y.
    cbn [str_mem] in H1, H2.
    apply orb_false_iff in H1 as [_ H1]. apply orb_false_iff in H2 as [_ H2].
    destruct (IH c2 H1 H2 H) as [-> ->]. now split.
Qed.

(** X14. The printed form of a scaffold tells its class and its name: when
    class names hold no space, as Python class names do, two scaffolds with
    the same printed form have the same class name and the same name. *)
Theorem repr_injective (class1 class2 : string) (self1 self2 : BaseScaffold) :
  str_mem " " class1 = false → str_mem " " class2 = false →
  __repr__ class1 self1 = __repr__ class2 self2 →
  class1 = class2 ∧ @scaffold_name self1 = @scaffold_name self2.
Proof.
  intros H1 H2 H. unfold __repr__ in H.
  apply str_app_inj_l in H.
  change " name=" with (String " " "name=") in H. rewrite !str_app_cons in H.
  apply str_split_at_space in H as [Hc H]; [|assumption..].
  split; [exact Hc|].
  rewrite !str_app_nil_l in H. injection H as H.
  apply str_app_inj_l in H.
  rewrite <- !str_app_assoc in H. apply str_app_inj_r in H.
  now apply str_app_inj_r in H.
Qed.

Lemma repr_injective_witness :
  __repr__ "ClaudeCodeScaffold" ClaudeCodeScaffold
  = __repr__ ("Claude" +:+ "CodeScaffold") ClaudeCodeScaffold
  ∧ "ClaudeCodeScaffold" = "Claude" +:+ "CodeScaffold"
  ∧ @scaffold_name ClaudeCodeScaffold = @scaffold_name ClaudeCodeScaffold.
Proof.
  split; [reflexivity|].
  apply (repr_injective "ClaudeCodeScaffold" ("Claude" +:+ "CodeScaffold")
           ClaudeCodeScaffold ClaudeCodeScaffold); reflexivity.
Defined.
